(** * Books service: a shallow embedding of [src/main.py]

    The service is a FastAPI application over one SQLite table [books]
    (SQLAlchemy model [BookModel]).  Each handler opens one session, runs
    one query or mutation and commits; a handler that raises
    [HTTPException] never reaches its [commit], so the table it leaves is
    the table it found.  We therefore model every handler as a function
    from the table to the table it leaves and the result it returns. *)

From Stdlib Require Import String List ZArith Lia Bool DecimalString DecimalZ.
From Stdlib Require Import Sorting.Sorted.
Import ListNotations.
Open Scope string_scope.
Open Scope Z_scope.

Module Books.

(** ** Data model *)

(** [class BookModel(Base)]: one row of the table [books]. *)
Record BookModel := mkBookModel {
  id : Z;
  title : string;
  author : string
}.

(** [class BookSchema(BaseModel)]: body of [POST /books] and its response. *)
Record BookSchema := mkBookSchema {
  s_title : string;
  s_author : string
}.

(** [class BookGetSchema(BaseModel)]: rows returned by [GET /books] and
    [PUT /books/{book_id}]. *)
Record BookGetSchema := mkBookGetSchema {
  g_id : Z;
  g_title : string;
  g_author : string
}.

(** [class BookUpdateSchema(BaseModel)]: both fields default to [None]. *)
Record BookUpdateSchema := mkBookUpdateSchema {
  u_title : option string;
  u_author : option string
}.

(** [class PaginationParams(BaseModel)] once validated. *)
Record PaginationParams := mkPaginationParams {
  limit : Z;
  offset : Z
}.

(** The table [books]: its rows in the order a full scan returns them
    (for an SQLite rowid table, ascending [id]). *)
Definition Table := list BookModel.

(** A JSON object returned by a handler as a Python [dict]. *)
Definition Dict := list (string * string).

(** What a handler produces: a value, an [HTTPException(status_code,
    detail)], the framework's request-validation error (422) raised
    before the handler body runs, or an exception the handler does not
    catch, which the framework answers with 500 Internal Server Error. *)
Inductive Result (A : Type) :=
| Ok (v : A)
| HTTPException (status_code : Z) (detail : string)
| RequestValidationError
| InternalServerError (exc : string).
Arguments Ok {A} v.
Arguments HTTPException {A} status_code detail.
Arguments RequestValidationError {A}.
Arguments InternalServerError {A} exc.

(** Validation of [BookModel] into the response model [BookGetSchema]. *)
Definition to_get_schema (b : BookModel) : BookGetSchema :=
  {| g_id := id b; g_title := title b; g_author := author b |}.

(** ** Storage primitives *)

(** The driver (sqlite3) binds a Python [int] query parameter as a signed
    64-bit SQLite INTEGER; outside that range binding raises [OverflowError]
    before the statement runs. *)
Definition in_int64 (z : Z) : bool := (- 2 ^ 63 <=? z) && (z <? 2 ^ 63).

Definition overflow_error : string :=
  "OverflowError: Python int too large to convert to SQLite INTEGER".

(** [await session.get(BookModel, book_id)]:
    [SELECT ... FROM books WHERE books.id = ?] with [book_id] bound; an id
    that cannot be bound selects no row (the handlers below raise
    [OverflowError] for it before looking anything up). *)
Definition session_get (tbl : Table) (book_id : Z) : option BookModel :=
  if in_int64 book_id then find (fun r => Z.eqb (id r) book_id) tbl else None.

(** The rowid SQLite assigns to a row inserted without an explicit
    [id] into an [INTEGER PRIMARY KEY] table: [1] in an empty table,
    otherwise one more than the largest [id] present. *)
Definition next_rowid (tbl : Table) : Z :=
  match tbl with
  | [] => 1
  | r :: rs => fold_left (fun m r' => Z.max m (id r')) rs (id r) + 1
  end.

(** [str(book_id)] for a Python [int]: decimal, with a leading [-] when
    negative. *)
Definition py_str_int (z : Z) : string :=
  NilEmpty.string_of_int (Z.to_int z).

(** [int(s)] on the strings [py_str_int] produces. *)
Definition py_int_of_str (s : string) : option Z :=
  option_map Z.of_int (NilEmpty.int_of_string s).

(** ** Handlers *)

(** [POST /books]: [add_book]. *)
Definition add_book (book : BookSchema) (tbl : Table) : Table * Result BookSchema :=
  let new_book := {| id := next_rowid tbl;
                     title := s_title book;
                     author := s_author book |} in
  (* session.add(new_book); await session.commit() *)
  ((tbl ++ [new_book])%list, Ok book).

(** The detail of both [HTTPException]s: "Книга не найдена" ("book not
    found"). *)
Definition not_found_detail : string := "Книга не найдена".

(** [DELETE /books/{book_id}]: [delete_book].  [session.get] raises
    [OverflowError] for an id outside 64 bits; nothing is committed.
    [session.delete(book)] issues [DELETE FROM books WHERE books.id = ?]. *)
Definition delete_book (book_id : Z) (tbl : Table) : Table * Result Dict :=
  if negb (in_int64 book_id) then (tbl, InternalServerError overflow_error) else
  match session_get tbl book_id with
  | None => (tbl, HTTPException 404 not_found_detail)
  | Some book =>
      (filter (fun r => negb (Z.eqb (id r) (id book))) tbl,
       Ok [("detail", "Книга с id=" ++ py_str_int book_id ++ " удалена")])
  end.

(** The assignments [book.title = ...] and [book.author = ...] guarded by
    [is not None], as flushed by [commit] to the rows with the book's id. *)
Definition apply_update (book_data : BookUpdateSchema) (r : BookModel) : BookModel :=
  {| id := id r;
     title := match u_title book_data with Some t => t | None => title r end;
     author := match u_author book_data with Some a => a | None => author r end |}.

(** [PUT /books/{book_id}]: [update_book].  [session.get] raises
    [OverflowError] for an id outside 64 bits; nothing is committed.
    After the commit,
    [session.refresh(book)] re-reads the row by its id; the response is
    validated into [BookGetSchema]. *)
Definition update_book (book_id : Z) (book_data : BookUpdateSchema) (tbl : Table)
  : Table * Result BookGetSchema :=
  if negb (in_int64 book_id) then (tbl, InternalServerError overflow_error) else
  match session_get tbl book_id with
  | None => (tbl, HTTPException 404 not_found_detail)
  | Some book =>
      let book' := apply_update book_data book in
      let tbl' := map (fun r => if Z.eqb (id r) (id book) then apply_update book_data r else r) tbl in
      let refreshed := match session_get tbl' (id book) with
                       | Some r => r
                       | None => book'
                       end in
      (tbl', Ok (to_get_schema refreshed))
  end.

(** ** Pagination *)

(** A query-string value as pydantic's lax [int] validation classifies it:
    text it reads as the integer [z] ([QInt z]: e.g. "7", " 7 ", and also
    "2.0", read as 2), or text it refuses as not an integer ([QOther]: e.g.
    "abc", "2.5"), the wrong type for an [int] field. *)
Inductive QueryValue :=
| QInt (z : Z)
| QOther (s : string).

(** [Field(default, ge=lo, le=hi)] on an [int] field: an absent value takes
    the default (pydantic does not validate defaults); a present one must be
    an integer within the bounds. *)
Definition validate_int_field (default : Z) (lo : Z) (hi : option Z)
  (v : option QueryValue) : option Z :=
  match v with
  | None => Some default
  | Some (QOther _) => None
  | Some (QInt z) =>
      if (lo <=? z) && match hi with Some h => z <=? h | None => true end
      then Some z else None
  end.

(** [PaginationParams]: [limit = Field(20, ge=1, le=100)],
    [offset = Field(0, ge=0)]. *)
Definition validate_pagination (limit_q offset_q : option QueryValue)
  : option PaginationParams :=
  match validate_int_field 20 1 (Some 100) limit_q,
        validate_int_field 0 0 None offset_q with
  | Some l, Some o => Some {| limit := l; offset := o |}
  | _, _ => None
  end.

(** [select(BookModel).limit(l).offset(o)]: the rows [LIMIT l OFFSET o]
    selects over the scan order of the table once both are bound (see
    [get_books_request]); read-only, nothing committed. *)
Definition get_books (pagination : PaginationParams) (tbl : Table)
  : list BookGetSchema :=
  map to_get_schema
    (firstn (Z.to_nat (limit pagination)) (skipn (Z.to_nat (offset pagination)) tbl)).

(** [GET /books?limit=&offset=]: the dependency [PaginationDep] is
    resolved before [get_books] runs; [session.execute] then binds [LIMIT]
    and [OFFSET], which raises [OverflowError] for a value outside 64 bits
    ([offset] has no upper bound). *)
Definition get_books_request (limit_q offset_q : option QueryValue) (tbl : Table)
  : Table * Result (list BookGetSchema) :=
  match validate_pagination limit_q offset_q with
  | None => (tbl, RequestValidationError)
  | Some p =>
      if in_int64 (limit p) && in_int64 (offset p)
      then (tbl, Ok (get_books p tbl))
      else (tbl, InternalServerError overflow_error)
  end.

(** ** Schema setup *)

(** [POST /setup]: [setup_database].  [Base.metadata.drop_all] drops the
    table [books], [Base.metadata.create_all] creates it again, empty; the
    handler returns [None]. *)
Definition setup_database (tbl : Table) : Table * Result unit :=
  ([], Ok tt).

(** ** Scan order *)

(** Each id strictly smaller than the next: the order of a full scan of a
    rowid table, whose ids are also pairwise distinct. *)
Fixpoint ascending (l : list Z) : bool :=
  match l with
  | x :: ((y :: _) as t) => (x <? y) && ascending t
  | _ => true
  end.

Definition ids_ascending (tbl : Table) : bool := ascending (map id tbl).

(** The tables the service can reach from [POST /setup] by any sequence of
    requests, each run as its own transaction. *)
Inductive reachable : Table -> Prop :=
| reach_setup tbl : reachable (fst (setup_database tbl))
| reach_add book tbl : reachable tbl -> reachable (fst (add_book book tbl))
| reach_update book_id d tbl :
    reachable tbl -> reachable (fst (update_book book_id d tbl))
| reach_delete book_id tbl :
    reachable tbl -> reachable (fst (delete_book book_id tbl))
| reach_get limit_q offset_q tbl :
    reachable tbl -> reachable (fst (get_books_request limit_q offset_q tbl)).

End Books.
Import Books.

(** ** Sanity checks on the scenario of the spec *)

Example add_book_dune :
  add_book {| s_title := "Dune"; s_author := "Herbert" |} []
  = ([{| id := 1; title := "Dune"; author := "Herbert" |}],
     Ok {| s_title := "Dune"; s_author := "Herbert" |}).
Proof. reflexivity. Qed.

Example update_book_dune :
  update_book 1 {| u_title := None; u_author := Some "F. Herbert" |}
    [{| id := 1; title := "Dune"; author := "Herbert" |}]
  = ([{| id := 1; title := "Dune"; author := "F. Herbert" |}],
     Ok {| g_id := 1; g_title := "Dune"; g_author := "F. Herbert" |}).
Proof. reflexivity. Qed.

Example delete_book_dune :
  delete_book 1 [{| id := 1; title := "Dune"; author := "F. Herbert" |}]
  = ([], Ok [("detail", "Книга с id=1 удалена")]).
Proof. reflexivity. Qed.

Example delete_book_dune_again :
  delete_book 1 [] = ([], HTTPException 404 "Книга не найдена").
Proof. reflexivity. Qed.

Example get_books_defaults :
  get_books_request None None [{| id := 1; title := "Dune"; author := "Herbert" |}]
  = ([{| id := 1; title := "Dune"; author := "Herbert" |}],
     Ok [{| g_id := 1; g_title := "Dune"; g_author := "Herbert" |}]).
Proof. reflexivity. Qed.

Example delete_book_overflow :
  delete_book (2 ^ 63) [] = ([], InternalServerError overflow_error).
Proof. reflexivity. Qed.

Example get_books_offset_2_63 :
  get_books_request None (Some (QInt (2 ^ 63))) []
  = ([], InternalServerError overflow_error).
Proof. reflexivity. Qed.

Example py_str_int_negative : py_str_int (-305) = "-305".
Proof. reflexivity. Qed.

(** ** Storage lemmas *)

Section Storage.

Lemma session_get_spec (tbl : Table) (k : Z) (b : BookModel) :
  session_get tbl k = Some b -> id b = k /\ In b tbl.
Proof.
  unfold session_get. intros H. destruct (in_int64 k); [|discriminate].
  destruct (find_some _ _ H) as [Hin Hk].
  split; [now apply Z.eqb_eq | exact Hin].
Qed.

(** A row is only ever found under an id that can be bound. *)
Lemma session_get_in_range (tbl : Table) (k : Z) (b : BookModel) :
  session_get tbl k = Some b -> in_int64 k = true.
Proof. unfold session_get. now destruct (in_int64 k). Qed.

(** Reading through a row-wise rewrite that keeps every row's id. *)
Lemma session_get_map (f : BookModel -> BookModel) (tbl : Table) (k : Z) :
  (forall r, id (f r) = id r) ->
  session_get (map f tbl) k = option_map f (session_get tbl k).
Proof.
  intros Hf. unfold session_get. destruct (in_int64 k); [|reflexivity].
  induction tbl as [|r rs IH]; simpl; [reflexivity|].
  rewrite Hf. destruct (id r =? k); [reflexivity | exact IH].
Qed.

Lemma session_get_filter_out (tbl : Table) (k : Z) :
  session_get (filter (fun r => negb (id r =? k)) tbl) k = None.
Proof.
  unfold session_get. destruct (in_int64 k); [|reflexivity].
  induction tbl as [|r rs IH]; simpl; [reflexivity|].
  destruct (id r =? k) eqn:E; simpl; [exact IH|].
  rewrite E. exact IH.
Qed.

Lemma apply_update_id (d : BookUpdateSchema) (r : BookModel) :
  id (apply_update d r) = id r.
Proof. reflexivity. Qed.

Lemma apply_update_idem (d : BookUpdateSchema) (r : BookModel) :
  apply_update d (apply_update d r) = apply_update d r.
Proof.
  unfold apply_update; simpl.
  destruct (u_title d), (u_author d); reflexivity.
Qed.

Lemma apply_update_empty (r : BookModel) :
  apply_update {| u_title := None; u_author := None |} r = r.
Proof. destruct r; reflexivity. Qed.

(** The row-wise rewrite [update_book] commits. *)
Definition update_rows (k : Z) (d : BookUpdateSchema) (r : BookModel) : BookModel :=
  if id r =? k then apply_update d r else r.

Lemma update_rows_id (k : Z) (d : BookUpdateSchema) (r : BookModel) :
  id (update_rows k d r) = id r.
Proof. unfold update_rows. now destruct (id r =? k). Qed.

Lemma update_rows_idem (k : Z) (d : BookUpdateSchema) (r : BookModel) :
  update_rows k d (update_rows k d r) = update_rows k d r.
Proof.
  unfold update_rows. destruct (id r =? k) eqn:E.
  - rewrite apply_update_id, E. apply apply_update_idem.
  - now rewrite E.
Qed.

Lemma update_book_unfold (book_id : Z) (d : BookUpdateSchema) (tbl : Table) (b : BookModel) :
  session_get tbl book_id = Some b ->
  update_book book_id d tbl
  = (map (update_rows book_id d) tbl, Ok (to_get_schema (apply_update d b))).
Proof.
  intros H. destruct (session_get_spec _ _ _ H) as [Hid _].
  unfold update_book. rewrite (session_get_in_range _ _ _ H). cbn [negb].
  rewrite H, Hid.
  change (fun r => if id r =? book_id then apply_update d r else r)
    with (update_rows book_id d).
  rewrite session_get_map by apply update_rows_id.
  rewrite H. simpl. unfold update_rows. now rewrite Hid, Z.eqb_refl.
Qed.

Lemma delete_book_unfold (book_id : Z) (tbl : Table) (b : BookModel) :
  session_get tbl book_id = Some b ->
  delete_book book_id tbl
  = (filter (fun r => negb (id r =? book_id)) tbl,
     Ok [("detail", "Книга с id=" ++ py_str_int book_id ++ " удалена")]).
Proof.
  intros H. destruct (session_get_spec _ _ _ H) as [Hid _].
  unfold delete_book. rewrite (session_get_in_range _ _ _ H). cbn [negb].
  now rewrite H, Hid.
Qed.

Lemma delete_book_absent (book_id : Z) (tbl : Table) :
  session_get tbl book_id = None -> in_int64 book_id = true ->
  delete_book book_id tbl = (tbl, HTTPException 404 not_found_detail).
Proof. intros H Hr. unfold delete_book. now rewrite Hr, H. Qed.

(** Python's [int(str(n)) == n]. *)
Lemma py_int_of_str_int (z : Z) : py_int_of_str (py_str_int z) = Some z.
Proof.
  unfold py_int_of_str, py_str_int.
  rewrite NilEmpty.isi. simpl. now rewrite DecimalZ.of_to.
Qed.

Lemma next_rowid_app (tbl : Table) (r : BookModel) :
  id r + 1 <= next_rowid (tbl ++ [r])%list.
Proof.
  destruct tbl as [|r0 rs]; simpl; [lia|].
  rewrite fold_left_app. simpl. lia.
Qed.

Lemma validate_pagination_in_range (l o : Z) :
  1 <= l <= 100 -> 0 <= o ->
  validate_pagination (Some (QInt l)) (Some (QInt o)) = Some {| limit := l; offset := o |}.
Proof.
  intros Hl Ho. unfold validate_pagination, validate_int_field.
  replace ((1 <=? l) && (l <=? 100))%bool with true by
    (symmetry; apply andb_true_iff; rewrite !Z.leb_le; lia).
  replace ((0 <=? o) && true)%bool with true by
    (symmetry; apply andb_true_iff; rewrite !Z.leb_le; lia).
  reflexivity.
Qed.

Lemma in_int64_iff (z : Z) : in_int64 z = true <-> - 2 ^ 63 <= z < 2 ^ 63.
Proof. unfold in_int64. now rewrite andb_true_iff, Z.leb_le, Z.ltb_lt. Qed.

Lemma get_books_request_bound (l o : Z) (tbl : Table) :
  1 <= l <= 100 -> 0 <= o < 2 ^ 63 ->
  get_books_request (Some (QInt l)) (Some (QInt o)) tbl
  = (tbl, Ok (get_books {| limit := l; offset := o |} tbl)).
Proof.
  intros Hl Ho. unfold get_books_request.
  rewrite (validate_pagination_in_range l o Hl ltac:(lia)). simpl.
  replace (in_int64 l) with true by (symmetry; apply in_int64_iff; lia).
  replace (in_int64 o) with true by (symmetry; apply in_int64_iff; lia).
  reflexivity.
Qed.

Lemma get_books_request_overflow (l o : Z) (tbl : Table) :
  1 <= l <= 100 -> 2 ^ 63 <= o ->
  get_books_request (Some (QInt l)) (Some (QInt o)) tbl
  = (tbl, InternalServerError overflow_error).
Proof.
  intros Hl Ho. unfold get_books_request.
  rewrite (validate_pagination_in_range l o Hl ltac:(lia)). simpl.
  replace (in_int64 o) with false; [now rewrite andb_false_r|].
  symmetry. apply not_true_iff_false. rewrite in_int64_iff. lia.
Qed.

End Storage.

(** ** Claims *)

(** C1: for an existing id, [update_book] stores and returns the record
    whose title and author are the supplied non-null fields, the old values
    otherwise, and whose id is the requested one; rows with other ids are
    untouched; an empty body [{}] leaves the table exactly as it was. *)
Theorem update_book_applies_supplied_fields
  (tbl : Table) (book_id : Z) (d : BookUpdateSchema) (b : BookModel) :
  session_get tbl book_id = Some b ->
  let b' := {| id := book_id;
               title := match u_title d with Some t => t | None => title b end;
               author := match u_author d with Some a => a | None => author b end |} in
  id b = book_id
  /\ session_get (fst (update_book book_id d tbl)) book_id = Some b'
  /\ snd (update_book book_id d tbl) = Ok (to_get_schema b')
  /\ (forall j, j <> book_id ->
        session_get (fst (update_book book_id d tbl)) j = session_get tbl j)
  /\ (u_title d = None -> u_author d = None ->
        update_book book_id d tbl = (tbl, Ok (to_get_schema b))).
Proof.
  intros H b'. destruct (session_get_spec _ _ _ H) as [Hid _].
  rewrite (update_book_unfold _ _ _ _ H); simpl.
  assert (Hb' : apply_update d b = b') by (subst b'; rewrite <- Hid; reflexivity).
  split; [exact Hid|].
  split.
  { rewrite session_get_map by apply update_rows_id. rewrite H. simpl.
    unfold update_rows. rewrite Hid, Z.eqb_refl. now rewrite Hb'. }
  split; [now rewrite Hb'|].
  split.
  { intros j Hj. rewrite session_get_map by apply update_rows_id.
    destruct (session_get tbl j) as [r|] eqn:Hr; [|reflexivity].
    destruct (session_get_spec _ _ _ Hr) as [Hrj _].
    simpl. unfold update_rows. replace (id r =? book_id) with false; [reflexivity|].
    symmetry. apply Z.eqb_neq. lia. }
  intros Ht Ha. destruct d as [t a]; simpl in Ht, Ha; subst t a.
  rewrite apply_update_empty. f_equal.
  erewrite map_ext; [apply map_id|]. intros r. unfold update_rows.
  destruct (id r =? book_id); [apply apply_update_empty | reflexivity].
Qed.

Lemma update_book_applies_supplied_fields_witness :
  let tbl := [{| id := 1; title := "Dune"; author := "Herbert" |};
              {| id := 2; title := "Emma"; author := "Austen" |}] in
  session_get tbl 1 = Some {| id := 1; title := "Dune"; author := "Herbert" |}
  /\ snd (update_book 1 {| u_title := Some "Dune Messiah"; u_author := None |} tbl)
     = Ok {| g_id := 1; g_title := "Dune Messiah"; g_author := "Herbert" |}.
Proof.
  intros tbl. split; [reflexivity|].
  apply (update_book_applies_supplied_fields tbl 1
           {| u_title := Some "Dune Messiah"; u_author := None |}
           {| id := 1; title := "Dune"; author := "Herbert" |}).
  reflexivity.
Defined.

(** C2 (as stated, refuted): the not-found detail is not the English
    "book not found": on an empty table, updating id 1 answers with the
    detail "Книга не найдена". *)
Lemma absent_id_detail_not_english :
  ~ (forall (tbl : Table) (book_id : Z) (d : BookUpdateSchema),
       session_get tbl book_id = None ->
       update_book book_id d tbl = (tbl, HTTPException 404 "book not found")
       /\ delete_book book_id tbl = (tbl, HTTPException 404 "book not found")).
Proof.
  intros H.
  destruct (H [] 1 {| u_title := None; u_author := None |} eq_refl) as [Hu _].
  vm_compute in Hu. discriminate Hu.
Qed.

(** C2 (amended): for an id absent from the table, both [update_book] and
    [delete_book] leave the table unchanged; for an id that fits in a
    signed 64-bit integer they raise [HTTPException] with status 404 and
    the detail "Книга не найдена" ("book not found"), and for any other id
    [session.get] raises [OverflowError], answered with 500. *)
Theorem absent_id_not_found
  (tbl : Table) (book_id : Z) (d : BookUpdateSchema) :
  session_get tbl book_id = None ->
  update_book book_id d tbl
  = (tbl, if in_int64 book_id then HTTPException 404 "Книга не найдена"
          else InternalServerError overflow_error)
  /\ delete_book book_id tbl
  = (tbl, if in_int64 book_id then HTTPException 404 "Книга не найдена"
          else InternalServerError overflow_error).
Proof.
  intros H. unfold update_book, delete_book. rewrite H.
  destruct (in_int64 book_id); split; reflexivity.
Qed.

Lemma absent_id_not_found_witness :
  session_get [{| id := 1; title := "Dune"; author := "Herbert" |}] 7 = None
  /\ delete_book 7 [{| id := 1; title := "Dune"; author := "Herbert" |}]
     = ([{| id := 1; title := "Dune"; author := "Herbert" |}],
        HTTPException 404 "Книга не найдена").
Proof.
  split; [reflexivity|].
  apply (absent_id_not_found _ 7 {| u_title := None; u_author := None |}).
  reflexivity.
Defined.

(** C3: [add_book] answers with exactly the submitted [BookSchema] (title
    and author, a record with no id field), whatever the table, so the
    answer cannot depend on the id the table assigns. *)
Theorem add_book_echoes_body (book : BookSchema) (tbl1 tbl2 : Table) :
  snd (add_book book tbl1) = Ok book
  /\ snd (add_book book tbl1) = snd (add_book book tbl2).
Proof. repeat split. Qed.

(** C4 (as stated, refuted): the confirmation is not the English
    "book id=<id> deleted". *)
Lemma delete_detail_not_english :
  ~ (forall (tbl : Table) (book_id : Z) (b : BookModel),
       session_get tbl book_id = Some b ->
       snd (delete_book book_id tbl)
       = Ok [("detail", "book id=" ++ py_str_int book_id ++ " deleted")]).
Proof.
  intros H.
  specialize (H [{| id := 1; title := "Dune"; author := "Herbert" |}] 1
                {| id := 1; title := "Dune"; author := "Herbert" |} eq_refl).
  vm_compute in H. discriminate H.
Qed.

(** C4 (amended): deleting an existing id answers
    [{"detail": "Книга с id=<id> удалена"}] ("book with id=<id> deleted"),
    where <id> is [str(book_id)], from which [int] recovers the id. *)
Theorem delete_book_confirmation (tbl : Table) (book_id : Z) (b : BookModel) :
  session_get tbl book_id = Some b ->
  snd (delete_book book_id tbl)
  = Ok [("detail", "Книга с id=" ++ py_str_int book_id ++ " удалена")]
  /\ py_int_of_str (py_str_int book_id) = Some book_id.
Proof.
  intros H. rewrite (delete_book_unfold _ _ _ H). split; [reflexivity|].
  apply py_int_of_str_int.
Qed.

Lemma delete_book_confirmation_witness :
  snd (delete_book 42 [{| id := 42; title := "Dune"; author := "Herbert" |}])
  = Ok [("detail", "Книга с id=42 удалена")].
Proof.
  apply (delete_book_confirmation _ 42 {| id := 42; title := "Dune"; author := "Herbert" |}).
  reflexivity.
Defined.

(** C5: deleting an existing id removes every row with that id, so a
    second delete of the same id raises the 404 not-found exception. *)
Theorem delete_twice_not_found (tbl : Table) (book_id : Z) (b : BookModel) :
  session_get tbl book_id = Some b ->
  (exists msg, snd (delete_book book_id tbl) = Ok msg)
  /\ session_get (fst (delete_book book_id tbl)) book_id = None
  /\ delete_book book_id (fst (delete_book book_id tbl))
     = (fst (delete_book book_id tbl), HTTPException 404 not_found_detail).
Proof.
  intros H. pose proof (delete_book_unfold _ _ _ H) as Hdel.
  assert (Hgone : session_get (fst (delete_book book_id tbl)) book_id = None).
  { rewrite Hdel. apply session_get_filter_out. }
  split; [rewrite Hdel; eexists; reflexivity|].
  split; [exact Hgone|].
  apply delete_book_absent; [exact Hgone | exact (session_get_in_range _ _ _ H)].
Qed.

Lemma delete_twice_not_found_witness :
  delete_book 1 (fst (delete_book 1 [{| id := 1; title := "Dune"; author := "Herbert" |}]))
  = ([], HTTPException 404 not_found_detail).
Proof.
  destruct (delete_twice_not_found [{| id := 1; title := "Dune"; author := "Herbert" |}] 1
              {| id := 1; title := "Dune"; author := "Herbert" |} eq_refl) as [_ [_ H]].
  exact H.
Defined.

(** C6: applying [update_book] a second time with the same body leaves the
    table and the answer exactly as the first application did. *)
Theorem update_book_idempotent (tbl : Table) (book_id : Z) (d : BookUpdateSchema) :
  update_book book_id d (fst (update_book book_id d tbl)) = update_book book_id d tbl.
Proof.
  destruct (session_get tbl book_id) as [b|] eqn:H.
  - destruct (session_get_spec _ _ _ H) as [Hid _].
    rewrite (update_book_unfold _ _ _ _ H). simpl fst.
    assert (H2 : session_get (map (update_rows book_id d) tbl) book_id
                 = Some (apply_update d b)).
    { rewrite session_get_map by apply update_rows_id. rewrite H. simpl.
      unfold update_rows. now rewrite Hid, Z.eqb_refl. }
    rewrite (update_book_unfold _ _ _ _ H2), apply_update_idem, map_map.
    f_equal. apply map_ext. apply update_rows_idem.
  - unfold update_book. rewrite H.
    destruct (in_int64 book_id); cbn [fst negb]; rewrite ?H; reflexivity.
Qed.



(** C8 (as stated, refuted): [offset] has no upper bound, so
    [offset = 2^63] passes validation, but binding it raises [OverflowError]
    and the request is answered with 500, not with a list. *)
Lemma get_books_offset_overflow :
  ~ (forall (tbl : Table) (l o : Z), 1 <= l <= 100 -> 0 <= o ->
       exists rows,
         get_books_request (Some (QInt l)) (Some (QInt o)) tbl = (tbl, Ok rows)).
Proof.
  intros H. destruct (H [] 20 (2 ^ 63) ltac:(lia) ltac:(lia)) as (rows & Hr).
  vm_compute in Hr. discriminate Hr.
Qed.

(** C8 (amended): with valid [limit] and [offset], [GET /books] leaves the
    table as it is; for an [offset] below 2^63 it answers with a prefix of
    the rows after the first [offset] rows, of at most [limit] rows, empty
    once [offset] reaches the number of rows; for a larger [offset] it
    answers with 500 ([OverflowError]). *)
Theorem get_books_window (tbl : Table) (l o : Z) :
  1 <= l <= 100 -> 0 <= o ->
  (o < 2 ^ 63 ->
   exists rows,
     get_books_request (Some (QInt l)) (Some (QInt o)) tbl = (tbl, Ok rows)
     /\ (exists rest, map to_get_schema (skipn (Z.to_nat o) tbl) = (rows ++ rest)%list)
     /\ Z.of_nat (length rows) <= l
     /\ (Z.of_nat (length tbl) <= o -> rows = []))
  /\ (2 ^ 63 <= o ->
      get_books_request (Some (QInt l)) (Some (QInt o)) tbl
      = (tbl, InternalServerError overflow_error)).
Proof.
  intros Hl Ho. split; [|intros Hbig; now apply get_books_request_overflow].
  intros Hsmall.
  exists (map to_get_schema (firstn (Z.to_nat l) (skipn (Z.to_nat o) tbl))).
  split; [now rewrite get_books_request_bound by lia|].
  split.
  { exists (map to_get_schema (skipn (Z.to_nat l) (skipn (Z.to_nat o) tbl))).
    rewrite <- map_app, firstn_skipn. reflexivity. }
  split.
  { rewrite length_map. pose proof (firstn_le_length (Z.to_nat l) (skipn (Z.to_nat o) tbl)).
    lia. }
  intros Hlen. rewrite skipn_all2 by lia. now rewrite firstn_nil.
Qed.

Lemma get_books_window_witness :
  get_books_request (Some (QInt 1)) (Some (QInt 1))
    [{| id := 1; title := "Dune"; author := "Herbert" |};
     {| id := 2; title := "Emma"; author := "Austen" |}]
  = ([{| id := 1; title := "Dune"; author := "Herbert" |};
      {| id := 2; title := "Emma"; author := "Austen" |}],
     Ok [{| g_id := 2; g_title := "Emma"; g_author := "Austen" |}]).
Proof.
  destruct (proj1 (get_books_window
              [{| id := 1; title := "Dune"; author := "Herbert" |};
               {| id := 2; title := "Emma"; author := "Austen" |}] 1 1
              ltac:(lia) ltac:(lia)) ltac:(lia)) as (rows & H & _).
  rewrite H. vm_compute in H. injection H as <-. reflexivity.
Defined.

(** C9: after [add_book], [GET /books] with [offset=0] and a valid [limit]
    at least the number of rows answers with a list containing a row with
    the submitted title and author. *)
Theorem add_then_list_contains (book : BookSchema) (tbl : Table) (l : Z) :
  1 <= l <= 100 ->
  Z.of_nat (length (fst (add_book book tbl))) <= l ->
  exists rows r,
    get_books_request (Some (QInt l)) (Some (QInt 0)) (fst (add_book book tbl))
    = (fst (add_book book tbl), Ok rows)
    /\ In r rows /\ g_title r = s_title book /\ g_author r = s_author book.
Proof.
  intros Hl Hlen.
  rewrite get_books_request_bound by lia.
  eexists; exists (to_get_schema {| id := next_rowid tbl; title := s_title book;
                                    author := s_author book |}).
  split; [reflexivity|].
  split; [|split; reflexivity].
  unfold get_books; simpl. rewrite firstn_all2 by (simpl in Hlen; lia).
  apply in_map, in_or_app. right. now left.
Qed.

Lemma add_then_list_contains_witness :
  exists rows r,
    get_books_request (Some (QInt 20)) (Some (QInt 0))
      (fst (add_book {| s_title := "Dune"; s_author := "Herbert" |} []))
    = (fst (add_book {| s_title := "Dune"; s_author := "Herbert" |} []), Ok rows)
    /\ In r rows /\ g_title r = "Dune" /\ g_author r = "Herbert".
Proof.
  apply (add_then_list_contains {| s_title := "Dune"; s_author := "Herbert" |} [] 20).
  - lia.
  - simpl. lia.
Defined.

(** C10: [add_book] imposes no uniqueness on title or author: adding the
    same book twice succeeds both times and appends two rows with that title
    and author and distinct ids; empty strings are accepted and stored. *)
Theorem add_book_no_uniqueness (book : BookSchema) (tbl : Table) :
  let tbl1 := fst (add_book book tbl) in
  let tbl2 := fst (add_book book tbl1) in
  snd (add_book book tbl) = Ok book
  /\ snd (add_book book tbl1) = Ok book
  /\ exists r1 r2,
       tbl2 = (tbl ++ [r1; r2])%list
       /\ title r1 = s_title book /\ author r1 = s_author book
       /\ title r2 = s_title book /\ author r2 = s_author book
       /\ id r1 <> id r2
  /\ (forall tbl0 : Table,
        add_book {| s_title := ""; s_author := "" |} tbl0
        = ((tbl0 ++ [{| id := next_rowid tbl0; title := ""; author := "" |}])%list,
           Ok {| s_title := ""; s_author := "" |})).
Proof.
  intros tbl1 tbl2.
  split; [reflexivity|]. split; [reflexivity|].
  set (r1 := {| id := next_rowid tbl; title := s_title book; author := s_author book |}).
  exists r1, {| id := next_rowid (tbl ++ [r1])%list; title := s_title book;
                author := s_author book |}.
  split; [subst tbl1 tbl2; simpl; now rewrite <- app_assoc|].
  do 4 (split; [reflexivity|]).
  split; [|intros tbl0; reflexivity].
  pose proof (next_rowid_app tbl r1) as Hr. unfold r1 in *. simpl in *. lia.
Qed.

(** ** Invariants of the table *)


Section Invariants.

Lemma ascending_sorted (l : list Z) : ascending l = true <-> Sorted Z.lt l.
Proof.
  induction l as [|x [|y t] IH]; simpl.
  - split; constructor.
  - split; [repeat constructor|reflexivity].
  - rewrite andb_true_iff, Z.ltb_lt, IH. split.
    + intros [Hxy Hs]. constructor; [exact Hs|]. now constructor.
    + intros Hs. apply Sorted_inv in Hs as [Hs Hd].
      split; [now apply HdRel_inv in Hd | exact Hs].
Qed.

Lemma ids_ascending_strongly (tbl : Table) :
  ids_ascending tbl = true <-> StronglySorted Z.lt (map id tbl).
Proof.
  unfold ids_ascending. rewrite ascending_sorted. split.
  - apply Sorted_StronglySorted. intros x y z; lia.
  - apply StronglySorted_Sorted.
Qed.

Lemma strongly_sorted_app (l1 l2 : list Z) :
  StronglySorted Z.lt (l1 ++ l2) ->
  StronglySorted Z.lt l1 /\ StronglySorted Z.lt l2
  /\ (forall x y, In x l1 -> In y l2 -> x < y).
Proof.
  induction l1 as [|a l1 IH]; simpl; intros H.
  - split; [constructor|]. split; [exact H|]. intros x y [].
  - apply StronglySorted_inv in H as [H Ha].
    destruct (IH H) as (H1 & H2 & H12).
    rewrite Forall_forall in Ha.
    split; [constructor; [exact H1|]; rewrite Forall_forall; intros x Hx;
            apply Ha, in_or_app; now left|].
    split; [exact H2|].
    intros x y [<-|Hx] Hy; [apply Ha, in_or_app; now right | now apply H12].
Qed.

Lemma strongly_sorted_snoc (l : list Z) (x : Z) :
  StronglySorted Z.lt l -> (forall y, In y l -> y < x) ->
  StronglySorted Z.lt (l ++ [x]).
Proof.
  induction l as [|a l IH]; simpl; intros H Hx.
  - repeat constructor.
  - apply StronglySorted_inv in H as [H Ha]. constructor.
    + apply IH; [exact H | intros y Hy; apply Hx; now right].
    + apply Forall_app. split; [exact Ha|]. constructor; [apply Hx; now left | constructor].
Qed.

Lemma strongly_sorted_filter (f : Z -> bool) (l : list Z) :
  StronglySorted Z.lt l -> StronglySorted Z.lt (filter f l).
Proof.
  induction l as [|a l IH]; simpl; intros H; [constructor|].
  apply StronglySorted_inv in H as [H Ha].
  destruct (f a); [|now apply IH].
  constructor; [now apply IH|].
  rewrite Forall_forall in *. intros y Hy. apply filter_In in Hy as [Hy _]. now apply Ha.
Qed.

Lemma fold_max_ge (rs : Table) (a : Z) :
  a <= fold_left (fun m r' => Z.max m (id r')) rs a
  /\ forall r, In r rs -> id r <= fold_left (fun m r' => Z.max m (id r')) rs a.
Proof.
  revert a. induction rs as [|r rs IH]; simpl; intros a.
  - split; [lia | intros _ []].
  - destruct (IH (Z.max a (id r))) as [H1 H2]. split; [lia|].
    intros r' [<-|Hr']; [lia | now apply H2].
Qed.

(** The id SQLite assigns is larger than every id present. *)
Lemma next_rowid_fresh (tbl : Table) (r : BookModel) :
  In r tbl -> id r < next_rowid tbl.
Proof.
  destruct tbl as [|r0 rs]; [intros []|]. simpl.
  destruct (fold_max_ge rs (id r0)) as [H1 H2].
  intros [<-|Hr]; [lia|]. specialize (H2 r Hr). lia.
Qed.

Lemma add_book_ids (book : BookSchema) (tbl : Table) :
  map id (fst (add_book book tbl)) = (map id tbl ++ [next_rowid tbl])%list.
Proof. simpl. now rewrite map_app. Qed.

Lemma update_book_ids (book_id : Z) (d : BookUpdateSchema) (tbl : Table) :
  map id (fst (update_book book_id d tbl)) = map id tbl.
Proof.
  destruct (session_get tbl book_id) as [b|] eqn:H.
  - rewrite (update_book_unfold _ _ _ _ H). simpl.
    rewrite map_map. apply map_ext. apply update_rows_id.
  - unfold update_book. rewrite H. now destruct (in_int64 book_id).
Qed.

(** [delete_book] either leaves the ids as they were or removes the
    requested one. *)
Lemma delete_book_ids (book_id : Z) (tbl : Table) :
  map id (fst (delete_book book_id tbl)) = map id tbl
  \/ map id (fst (delete_book book_id tbl))
     = filter (fun z => negb (z =? book_id)) (map id tbl).
Proof.
  destruct (session_get tbl book_id) as [b|] eqn:H.
  - right. rewrite (delete_book_unfold _ _ _ H). simpl.
    now rewrite filter_map_swap.
  - left. unfold delete_book. rewrite H. now destruct (in_int64 book_id).
Qed.

End Invariants.

Section Composition.

Lemma session_get_none_ids (tbl : Table) (k : Z) (r : BookModel) :
  in_int64 k = true -> session_get tbl k = None -> In r tbl -> id r <> k.
Proof.
  unfold session_get. intros Hk H Hr E. rewrite Hk in H.
  pose proof (find_none _ _ H r Hr) as Hn.
  simpl in Hn. rewrite E, Z.eqb_refl in Hn. discriminate.
Qed.

(** Whether or not the id is present, the table [update_book] leaves is the
    row-wise rewrite of the rows with that id, once the id can be bound. *)
Lemma update_book_rows (k : Z) (d : BookUpdateSchema) (tbl : Table) :
  fst (update_book k d tbl) = if in_int64 k then map (update_rows k d) tbl else tbl.
Proof.
  destruct (session_get tbl k) as [b|] eqn:H.
  - rewrite (update_book_unfold _ _ _ _ H). now rewrite (session_get_in_range _ _ _ H).
  - unfold update_book. rewrite H. destruct (in_int64 k) eqn:Hk; [|reflexivity].
    simpl. symmetry.
    rewrite <- (map_id tbl) at 2. apply map_ext_in. intros r Hr.
    unfold update_rows. apply (session_get_none_ids _ _ _ Hk H) in Hr.
    apply Z.eqb_neq in Hr. now rewrite Hr.
Qed.

Lemma no_dup_of_strongly (l : list Z) : StronglySorted Z.lt l -> NoDup l.
Proof.
  induction l as [|a l IH]; intros H; constructor.
  - apply StronglySorted_inv in H as [_ Ha]. rewrite Forall_forall in Ha.
    intros Hin. specialize (Ha a Hin). lia.
  - apply IH. now apply StronglySorted_inv in H as [H _].
Qed.

Lemma filter_length_unique (k : Z) (l : list Z) :
  NoDup l -> In k l -> length (filter (fun z => negb (z =? k)) l) = (length l - 1)%nat.
Proof.
  induction l as [|a l IH]; simpl; intros Hnd Hin; [destruct Hin|].
  inversion Hnd as [|? ? Hna Hnd']; subst.
  destruct (a =? k) eqn:E; simpl.
  - apply Z.eqb_eq in E; subst a.
    rewrite forallb_filter_id; [lia|].
    apply forallb_forall. intros z Hz. destruct (z =? k) eqn:E'; [|reflexivity].
    apply Z.eqb_eq in E'. subst. contradiction.
  - destruct Hin as [->|Hin]; [now rewrite Z.eqb_refl in E|].
    rewrite IH by assumption. destruct l; [destruct Hin | simpl; lia].
Qed.

Lemma find_none_intro {A} (f : A -> bool) (l : list A) :
  (forall x, In x l -> f x = false) -> find f l = None.
Proof.
  induction l as [|a l IH]; simpl; intros H; [reflexivity|].
  rewrite H by (now left). apply IH. intros x Hx. apply H. now right.
Qed.

Lemma find_app {A} (f : A -> bool) (l1 l2 : list A) :
  find f (l1 ++ l2) = match find f l1 with Some x => Some x | None => find f l2 end.
Proof.
  induction l1 as [|a l1 IH]; simpl; [reflexivity|].
  destruct (f a); [reflexivity | exact IH].
Qed.

Lemma add_book_lookup_new (book : BookSchema) (tbl : Table) :
  in_int64 (next_rowid tbl) = true ->
  session_get (fst (add_book book tbl)) (next_rowid tbl)
  = Some {| id := next_rowid tbl; title := s_title book; author := s_author book |}.
Proof.
  intros Hk. unfold add_book, session_get; simpl. rewrite Hk, find_app.
  rewrite find_none_intro; [simpl; now rewrite Z.eqb_refl|].
  intros r Hr. apply Z.eqb_neq. pose proof (next_rowid_fresh _ _ Hr). lia.
Qed.

Lemma update_book_lookup (k : Z) (d : BookUpdateSchema) (tbl : Table) (b : BookModel) :
  session_get tbl k = Some b ->
  session_get (map (update_rows k d) tbl) k = Some (apply_update d b).
Proof.
  intros H. destruct (session_get_spec _ _ _ H) as [Hid _].
  rewrite session_get_map by apply update_rows_id. rewrite H. simpl.
  unfold update_rows. now rewrite Hid, Z.eqb_refl.
Qed.

Lemma find_filter_same {A} (p q : A -> bool) (l : list A) :
  (forall x, p x = true -> q x = true) -> find p (filter q l) = find p l.
Proof.
  intros Hpq. induction l as [|a l IH]; simpl; [reflexivity|].
  destruct (q a) eqn:Eq; simpl.
  - destruct (p a); [reflexivity | exact IH].
  - destruct (p a) eqn:Ep; [|exact IH]. rewrite (Hpq a Ep) in Eq. discriminate.
Qed.

Lemma strongly_sorted_window (l : list Z) (a b : nat) :
  StronglySorted Z.lt l -> StronglySorted Z.lt (firstn a (skipn b l)).
Proof.
  intros H. rewrite <- (firstn_skipn b l) in H.
  destruct (strongly_sorted_app _ _ H) as (_ & H2 & _).
  rewrite <- (firstn_skipn a (skipn b l)) in H2.
  now destruct (strongly_sorted_app _ _ H2) as (H3 & _ & _).
Qed.

Lemma get_books_ids (p : PaginationParams) (tbl : Table) :
  map g_id (get_books p tbl)
  = firstn (Z.to_nat (limit p)) (skipn (Z.to_nat (offset p)) (map id tbl)).
Proof.
  unfold get_books. rewrite map_map, skipn_map, firstn_map. reflexivity.
Qed.

Lemma in_firstn_in {A} (x : A) (n : nat) (l : list A) : In x (firstn n l) -> In x l.
Proof.
  intros H. rewrite <- (firstn_skipn n l). apply in_or_app. now left.
Qed.

End Composition.

(** ** Further properties of the handlers *)

(** X1: every table reachable from [POST /setup] by any sequence of
    requests lists its rows in strictly ascending id order, so its ids are
    pairwise distinct (the primary key stays unique). *)
Theorem reachable_ids_ascending (tbl : Table) :
  reachable tbl -> ids_ascending tbl = true /\ NoDup (map id tbl).
Proof.
  intros Hr. cut (ids_ascending tbl = true).
  { intros H. split; [exact H|]. apply no_dup_of_strongly, ids_ascending_strongly, H. }
  apply ids_ascending_strongly.
  induction Hr as [tbl|book tbl _ IH|k d tbl _ IH|k tbl _ IH|lq oq tbl _ IH].
  - constructor.
  - rewrite add_book_ids. apply strongly_sorted_snoc; [exact IH|].
    intros y Hy. apply in_map_iff in Hy as (r & <- & Hr). now apply next_rowid_fresh.
  - now rewrite update_book_ids.
  - destruct (delete_book_ids k tbl) as [E|E]; rewrite E;
      [exact IH | now apply strongly_sorted_filter].
  - unfold get_books_request. destruct (validate_pagination lq oq); [|exact IH].
    now destruct (_ && _)%bool.
Qed.

Lemma reachable_ids_ascending_witness :
  ids_ascending (fst (add_book {| s_title := "Emma"; s_author := "Austen" |}
                     (fst (add_book {| s_title := "Dune"; s_author := "Herbert" |}
                             (fst (setup_database [])))))) = true.
Proof.
  apply (reachable_ids_ascending _
           (reach_add _ _ (reach_add _ _ (reach_setup [])))).
Defined.



(** X4: deleting the id that [add_book] has just assigned (when it fits in
    64 bits) gives back the table as it was before the insert, with the
    confirmation for that id. *)
Theorem add_then_delete_restores (book : BookSchema) (tbl : Table) :
  in_int64 (next_rowid tbl) = true ->
  delete_book (next_rowid tbl) (fst (add_book book tbl))
  = (tbl, Ok [("detail", "Книга с id=" ++ py_str_int (next_rowid tbl) ++ " удалена")]).
Proof.
  intros Hk. rewrite (delete_book_unfold _ _ _ (add_book_lookup_new book tbl Hk)).
  f_equal. unfold add_book. simpl. rewrite filter_app. simpl. rewrite Z.eqb_refl. simpl.
  rewrite app_nil_r. apply forallb_filter_id, forallb_forall.
  intros r Hr. apply negb_true_iff, Z.eqb_neq.
  pose proof (next_rowid_fresh _ _ Hr). lia.
Qed.

Lemma add_then_delete_restores_witness :
  delete_book 2 (fst (add_book {| s_title := "Emma"; s_author := "Austen" |}
                        [{| id := 1; title := "Dune"; author := "Herbert" |}]))
  = ([{| id := 1; title := "Dune"; author := "Herbert" |}],
     Ok [("detail", "Книга с id=2 удалена")]).
Proof.
  apply (add_then_delete_restores {| s_title := "Emma"; s_author := "Austen" |}
           [{| id := 1; title := "Dune"; author := "Herbert" |}]).
  reflexivity.
Defined.

(** X5: deleting an id leaves what every other id reads unchanged. *)
Theorem delete_book_frame (tbl : Table) (k j : Z) :
  j <> k -> session_get (fst (delete_book k tbl)) j = session_get tbl j.
Proof.
  intros Hjk.
  destruct (session_get tbl k) as [b|] eqn:H.
  2:{ unfold delete_book. rewrite H. now destruct (in_int64 k). }
  rewrite (delete_book_unfold _ _ _ H). simpl.
  unfold session_get. destruct (in_int64 j); [|reflexivity].
  apply find_filter_same. intros r Hr.
  apply Z.eqb_eq in Hr. apply negb_true_iff, Z.eqb_neq. lia.
Qed.

Lemma delete_book_frame_witness :
  session_get (fst (delete_book 1 [{| id := 1; title := "Dune"; author := "Herbert" |};
                                   {| id := 2; title := "Emma"; author := "Austen" |}])) 2
  = Some {| id := 2; title := "Emma"; author := "Austen" |}.
Proof. rewrite (delete_book_frame _ 1 2) by lia. reflexivity. Defined.

(** X6: on a table with strictly ascending ids (every reachable table),
    deleting an existing id removes exactly one row. *)
Theorem delete_book_removes_one (tbl : Table) (k : Z) (b : BookModel) :
  ids_ascending tbl = true -> session_get tbl k = Some b ->
  length (fst (delete_book k tbl)) = (length tbl - 1)%nat.
Proof.
  intros Hasc H. destruct (session_get_spec _ _ _ H) as [Hid Hin].
  rewrite <- (length_map id (fst (delete_book k tbl))), (delete_book_unfold _ _ _ H).
  simpl. rewrite <- (filter_map_swap (fun z => negb (z =? k)) id tbl).
  rewrite filter_length_unique, length_map; [reflexivity| |].
  - apply no_dup_of_strongly, ids_ascending_strongly, Hasc.
  - rewrite <- Hid. now apply in_map.
Qed.

Lemma delete_book_removes_one_witness :
  length (fst (delete_book 2 [{| id := 1; title := "Dune"; author := "Herbert" |};
                              {| id := 2; title := "Emma"; author := "Austen" |}])) = 1%nat.
Proof.
  rewrite (delete_book_removes_one _ 2 {| id := 2; title := "Emma"; author := "Austen" |});
    reflexivity.
Defined.

(** X7: [update_book] never adds, removes or reorders rows and never
    changes an id, whether or not the id exists. *)
Theorem update_book_keeps_ids (book_id : Z) (d : BookUpdateSchema) (tbl : Table) :
  map id (fst (update_book book_id d tbl)) = map id tbl
  /\ length (fst (update_book book_id d tbl)) = length tbl.
Proof.
  split; [apply update_book_ids|].
  rewrite <- (length_map id (fst _)), <- (length_map id tbl). f_equal. apply update_book_ids.
Qed.

(** X8: two successive updates of one id act as a single update whose body
    takes each field from the second body when it is supplied there and
    from the first otherwise (same table, same answer, same 404 or 500). *)
Theorem update_book_compose (k : Z) (d1 d2 : BookUpdateSchema) (tbl : Table) :
  update_book k d2 (fst (update_book k d1 tbl))
  = update_book k {| u_title := match u_title d2 with Some t => Some t | None => u_title d1 end;
                     u_author := match u_author d2 with Some a => Some a | None => u_author d1 end |}
                tbl.
Proof.
  set (dm := {| u_title := _; u_author := _ |}).
  assert (Happ : forall r, apply_update d2 (apply_update d1 r) = apply_update dm r).
  { intros r. unfold apply_update, dm; simpl.
    destruct (u_title d1), (u_title d2), (u_author d1), (u_author d2); reflexivity. }
  destruct (session_get tbl k) as [b|] eqn:H.
  - rewrite (update_book_unfold _ _ _ _ H). simpl fst.
    rewrite (update_book_unfold _ _ _ _ (update_book_lookup _ d1 _ _ H)).
    rewrite (update_book_unfold _ _ _ _ H), map_map, Happ. f_equal.
    apply map_ext. intros r. unfold update_rows.
    destruct (id r =? k) eqn:E; [|now rewrite E]. rewrite apply_update_id, E. apply Happ.
  - unfold update_book. rewrite H.
    destruct (in_int64 k); cbn [fst negb]; rewrite ?H; reflexivity.
Qed.

(** X9: updates of two different ids commute on the table. *)
Theorem update_book_commute (k1 k2 : Z) (d1 d2 : BookUpdateSchema) (tbl : Table) :
  k1 <> k2 ->
  fst (update_book k2 d2 (fst (update_book k1 d1 tbl)))
  = fst (update_book k1 d1 (fst (update_book k2 d2 tbl))).
Proof.
  intros Hk. rewrite !update_book_rows.
  destruct (in_int64 k1), (in_int64 k2); try reflexivity.
  rewrite !map_map. apply map_ext. intros r.
  unfold update_rows.
  destruct (id r =? k1) eqn:E1, (id r =? k2) eqn:E2; simpl; rewrite ?E1, ?E2;
    try reflexivity.
  apply Z.eqb_eq in E1, E2. lia.
Qed.

Lemma update_book_commute_witness :
  fst (update_book 2 {| u_title := None; u_author := Some "J. Austen" |}
         (fst (update_book 1 {| u_title := Some "Dune Messiah"; u_author := None |}
                 [{| id := 1; title := "Dune"; author := "Herbert" |};
                  {| id := 2; title := "Emma"; author := "Austen" |}])))
  = fst (update_book 1 {| u_title := Some "Dune Messiah"; u_author := None |}
         (fst (update_book 2 {| u_title := None; u_author := Some "J. Austen" |}
                 [{| id := 1; title := "Dune"; author := "Herbert" |};
                  {| id := 2; title := "Emma"; author := "Austen" |}]))).
Proof. apply update_book_commute. lia. Defined.

(** X10: on a table with strictly ascending ids (every reachable table),
    every page [GET /books] returns lists its ids strictly ascending. *)
Theorem get_books_page_ascending (p : PaginationParams) (tbl : Table) :
  ids_ascending tbl = true -> ascending (map g_id (get_books p tbl)) = true.
Proof.
  intros H. rewrite get_books_ids. apply ascending_sorted, StronglySorted_Sorted.
  apply strongly_sorted_window, ids_ascending_strongly, H.
Qed.

Lemma get_books_page_ascending_witness :
  ascending (map g_id (get_books {| limit := 2; offset := 1 |}
                         [{| id := 1; title := "Dune"; author := "Herbert" |};
                          {| id := 3; title := "Emma"; author := "Austen" |};
                          {| id := 7; title := "Ulysses"; author := "Joyce" |}])) = true.
Proof. apply get_books_page_ascending. reflexivity. Defined.

(** X11: on a table with strictly ascending ids, every row of the page at
    [offset = o] has a smaller id than every row of the page at
    [offset = o + limit]: consecutive pages never share or repeat a row. *)
Theorem get_books_consecutive_pages (tbl : Table) (l l' o : Z) (r1 r2 : BookGetSchema) :
  ids_ascending tbl = true -> 0 <= l -> 0 <= o ->
  In r1 (get_books {| limit := l; offset := o |} tbl) ->
  In r2 (get_books {| limit := l'; offset := o + l |} tbl) ->
  g_id r1 < g_id r2.
Proof.
  intros Hasc Hl Ho H1 H2.
  apply (in_map g_id) in H1, H2. rewrite get_books_ids in H1, H2. simpl in H1, H2.
  apply in_firstn_in in H2.
  rewrite Z2Nat.inj_add, Nat.add_comm, <- skipn_skipn in H2 by assumption.
  apply ids_ascending_strongly in Hasc.
  rewrite <- (firstn_skipn (Z.to_nat o) (map id tbl)) in Hasc.
  destruct (strongly_sorted_app _ _ Hasc) as (_ & Hs & _).
  rewrite <- (firstn_skipn (Z.to_nat l) (skipn (Z.to_nat o) (map id tbl))) in Hs.
  destruct (strongly_sorted_app _ _ Hs) as (_ & _ & Hlt).
  now apply Hlt.
Qed.

Lemma get_books_consecutive_pages_witness :
  g_id {| g_id := 1; g_title := "Dune"; g_author := "Herbert" |}
  < g_id {| g_id := 3; g_title := "Emma"; g_author := "Austen" |}.
Proof.
  apply (get_books_consecutive_pages
           [{| id := 1; title := "Dune"; author := "Herbert" |};
            {| id := 3; title := "Emma"; author := "Austen" |}] 1 1 0);
    try reflexivity; try lia; simpl; auto.
Defined.

(** X12: [GET /books] with a valid [limit] and an [offset] that fits in 64
    bits answers with a page of exactly [min(limit, max(0, n - offset))]
    rows for a table of [n] rows. *)
Theorem get_books_page_size (tbl : Table) (l o : Z) :
  1 <= l <= 100 -> 0 <= o < 2 ^ 63 ->
  exists rows,
    get_books_request (Some (QInt l)) (Some (QInt o)) tbl = (tbl, Ok rows)
    /\ Z.of_nat (length rows) = Z.min l (Z.max 0 (Z.of_nat (length tbl) - o)).
Proof.
  intros Hl Ho. rewrite get_books_request_bound by assumption.
  eexists. split; [reflexivity|]. unfold get_books; simpl.
  rewrite length_map, length_firstn, length_skipn.
  rewrite Nat2Z.inj_min, Nat2Z.inj_sub_max, !Z2Nat.id by lia. reflexivity.
Qed.

Lemma get_books_page_size_witness :
  get_books_request (Some (QInt 20)) (Some (QInt 1))
    [{| id := 1; title := "Dune"; author := "Herbert" |};
     {| id := 3; title := "Emma"; author := "Austen" |}]
  = ([{| id := 1; title := "Dune"; author := "Herbert" |};
      {| id := 3; title := "Emma"; author := "Austen" |}],
     Ok [{| g_id := 3; g_title := "Emma"; g_author := "Austen" |}]).
Proof.
  destruct (get_books_page_size
              [{| id := 1; title := "Dune"; author := "Herbert" |};
               {| id := 3; title := "Emma"; author := "Austen" |}] 20 1
              ltac:(lia) ltac:(lia)) as (rows & H & Hlen).
  rewrite H. vm_compute in H. injection H as <-. reflexivity.
Defined.
